(** * The query builder of mongrid: filter accumulation and dispatch

    A shallow embedding of the [QueryBuilder] class (the chainable builder
    that accumulates a MongoDB filter document, find options and an
    aggregation pipeline, and then dispatches one terminal operation to the
    collection or to the model), with the properties of its specification
    stated over that embedding.

    Modelling conventions.

    - A JavaScript object is the finite map of its own properties
      ([gmap string value]) together with its kind; the order of the keys
      is abstracted away.  The filter and the operator table are object
      literals: reading a key they do not own finds the members of
      [Object.prototype].  The realm is the initial one of the engine
      (V8): [Object.prototype] has its twelve standard members, and they
      take new properties.  A call that writes on one of them leaves that
      realm, and the model stops there ([BuiltinWrite]).
    - An object may have been sealed or frozen by its owner; writing on it
      then fails as the language says.
    - Values are modelled by content.  An object that the caller passes to
      the builder twice is two equal values here: what a write in place on
      it shows through another reference is not followed.
    - A JavaScript number is a double.  The model has the integers, the
      two infinities and [NaN]; the arithmetic of [paginate] rounds to the
      nearest double, ties to even, and overflows to an infinity, as IEEE
      754 does.  Fractions are left out, and the two zeros are one.
    - The code of a class body is strict: a write that cannot be done
      raises [TypeError].
    - A promise is identified with the way it settles. *)

From stdpp Require Import gmap strings list fin_maps.
From Stdlib Require Import ZArith SpecFloat.

#[local] Set Warnings "-register-all".
#[local] Open Scope Z_scope.

(** ** JavaScript values *)

(** What an object is besides its own properties. *)
Inductive objkind (V : Type) : Type :=
| KPlain                        (* an object literal [{ ... }] *)
| KArray (elems : list V)       (* an array, with its elements *)
| KRegExp (source : string)     (* a [RegExp] *)
| KObjectId (hex : string)      (* a driver [ObjectId] *)
| KSession (id : nat)           (* a driver [ClientSession] handle *)
| KBuiltin (name : string)      (* the member [name] of [Object.prototype] *)
| KSealed (inner : objkind V)   (* after [Object.preventExtensions] or [Object.seal] *)
| KFrozen (inner : objkind V).  (* after [Object.freeze] *)

Arguments KPlain {V}.
Arguments KArray {V} elems.
Arguments KRegExp {V} source.
Arguments KObjectId {V} hex.
Arguments KSession {V} id.
Arguments KBuiltin {V} name.
Arguments KSealed {V} inner.
Arguments KFrozen {V} inner.

Inductive value : Type :=
| VUndefined
| VNull
| VBool (b : bool)
| VNum (n : Z)
| VInfinity (negative : bool)
| VNaN
| VStr (s : string)
| VObj (k : objkind value) (props : gmap string value).

(** A document of the collection ([T extends Document]): a plain object. *)
Abbreviation Document := (gmap string value).

(** [ToBoolean]: what [!x], [if (x)] and [x || y] test. *)
Definition truthy (v : value) : bool :=
  match v with
  | VUndefined => false
  | VNull => false
  | VBool b => b
  | VNum n => negb (n =? 0)
  | VInfinity _ => true
  | VNaN => false
  | VStr s => negb (String.eqb s "")
  | VObj _ _ => true
  end.

(** The own property names of [Object.prototype] in the initial realm. *)
Definition object_prototype_names : list string :=
  [ "constructor"; "__defineGetter__"; "__defineSetter__"; "hasOwnProperty";
    "__lookupGetter__"; "__lookupSetter__"; "isPrototypeOf";
    "propertyIsEnumerable"; "toString"; "valueOf"; "__proto__";
    "toLocaleString" ].

Definition inherited (name : string) : bool :=
  bool_decide (name ∈ object_prototype_names).

(** [o[k]] on an object literal given by its own properties: the own
    property, else the member of [Object.prototype] of that name (a
    built-in function, or [Object.prototype] itself for [__proto__]), else
    [undefined]. *)
Definition get (o : gmap string value) (k : string) : value :=
  match o !! k with
  | Some v => v
  | None => if inherited k then VObj (KBuiltin k) ∅ else VUndefined
  end.

(** The property key a member of [Object.prototype] turns into when it is
    used as one: the text V8 gives for a native function, and the text of
    [Object.prototype] for [__proto__]. *)
Definition builtin_source (name : string) : string :=
  if String.eqb name "__proto__" then "[object Object]"
  else "function " +:+ (if String.eqb name "constructor" then "Object" else name)
         +:+ "() { [native code] }".

(** [a || b]. *)
Definition js_or (a b : value) : value := if truthy a then a else b.

(** An array literal. *)
Definition array (elems : list value) : value := VObj (KArray elems) ∅.

(** The result of a synchronous builder call: it returns, it raises
    [TypeError], or it has written [key := v] on the member [name] of
    [Object.prototype], which every object of the realm shares. *)
Inductive outcome (A : Type) : Type :=
| Ok (a : A)
| TypeError
| BuiltinWrite (name key : string) (v : value).

Arguments Ok {A} a.
Arguments TypeError {A}.
Arguments BuiltinWrite {A} name key v.

Definition obind {A B : Type} (c : outcome A) (k : A → outcome B) : outcome B :=
  match c with
  | Ok a => k a
  | TypeError => TypeError
  | BuiltinWrite name key v => BuiltinWrite name key v
  end.

Notation "x ←← c ;; k" := (obind c (λ x, k))
  (at level 100, c at next level, right associativity, only parsing).

(** [target[key] = v] in strict code, where [key] is neither an array index
    nor [length] nor [__proto__] (the builder writes operator tokens, which
    start with [$], or the text of a built-in).  An object gets the own
    property unless it is frozen, or sealed and without that property;
    [undefined], [null] and the primitives raise. *)
Definition set_property (target : value) (key : string) (v : value) : outcome value :=
  match target with
  | VObj (KFrozen _) _ => TypeError
  | VObj (KSealed inner) props =>
      match props !! key with
      | Some _ => Ok (VObj (KSealed inner) (<[key := v]> props))
      | None => TypeError
      end
  | VObj k props => Ok (VObj k (<[key := v]> props))
  | _ => TypeError
  end.

(** ** Numbers *)

(** The doubles the builder computes with: integers, infinities, [NaN]. *)
Inductive number : Type :=
| Finite (z : Z)
| Infinite (negative : bool)
| NotANumber.

(** The double nearest to an integer, ties to even: 53 bits of precision,
    overflow at [2 ^ 1024]. *)
Definition round_double (z : Z) : number :=
  let a := Z.abs z in
  if a <? 2 ^ 53 then Finite z
  else
    let e := Z.log2 a - 52 in
    let q := a / 2 ^ e in
    let r := a mod 2 ^ e in
    let half := 2 ^ (e - 1) in
    let q' := if r <? half then q
              else if half <? r then q + 1
              else if Z.even q then q else q + 1 in
    if 2 ^ 1024 <=? q' * 2 ^ e then Infinite (z <? 0)
    else Finite (Z.sgn z * (q' * 2 ^ e)).

(** [x - y] and [x * y] on doubles. *)
Definition number_sub (x y : number) : number :=
  match x, y with
  | NotANumber, _ => NotANumber
  | _, NotANumber => NotANumber
  | Finite a, Finite b => round_double (a - b)
  | Infinite n, Finite _ => Infinite n
  | Finite _, Infinite n => Infinite (negb n)
  | Infinite n, Infinite m => if Bool.eqb n m then NotANumber else Infinite n
  end.

Definition number_mul (x y : number) : number :=
  match x, y with
  | NotANumber, _ => NotANumber
  | _, NotANumber => NotANumber
  | Finite a, Finite b => round_double (a * b)
  | Infinite n, Finite b => if b =? 0 then NotANumber else Infinite (xorb n (b <? 0))
  | Finite a, Infinite n => if a =? 0 then NotANumber else Infinite (xorb n (a <? 0))
  | Infinite n, Infinite m => Infinite (xorb n m)
  end.

(** A number as a value. *)
Definition VNumber (x : number) : value :=
  match x with
  | Finite z => VNum z
  | Infinite negative => VInfinity negative
  | NotANumber => VNaN
  end.

(** ** The builder *)

Module QueryBuilder.

(** The private fields of the class.  [model] is the collaborator the
    terminal operations take as an argument. *)
Record state : Type := mk {
  filter : gmap string value;
  options : gmap string value;
  populatedFields : list string;
  session : value;
  sort : value;
  projection : gmap string value;
  aggregationPipeline : list value;
  page : Z;
  pageSize : Z
}.

(** The field initialisers. *)
Definition new : state :=
  {| filter := ∅; options := ∅; populatedFields := []; session := VNull;
     sort := VObj KPlain ∅; projection := ∅; aggregationPipeline := [];
     page := 1; pageSize := 10 |}.

Definition set_filter (qb : state) (f : gmap string value) : state :=
  mk f (options qb) (populatedFields qb) (session qb) (sort qb)
     (projection qb) (aggregationPipeline qb) (page qb) (pageSize qb).

Definition set_options (qb : state) (o : gmap string value) : state :=
  mk (filter qb) o (populatedFields qb) (session qb) (sort qb)
     (projection qb) (aggregationPipeline qb) (page qb) (pageSize qb).

Definition setSession (qb : state) (s : value) : state :=
  mk (filter qb) (options qb) (populatedFields qb) s (sort qb)
     (projection qb) (aggregationPipeline qb) (page qb) (pageSize qb).

(** The own properties of the table of [where], an object literal. *)
Definition mongoOperatorMap : gmap string string :=
  list_to_map
    [ ("equal", "$eq");
      ("notEqual", "$ne");
      ("greaterThan", "$gt");
      ("greaterThanOrEqual", "$gte");
      ("lessThan", "$lt");
      ("lessThanOrEqual", "$lte");
      ("in", "$in");
      ("notIn", "$nin");
      ("exists", "$exists");
      ("regex", "$regex");
      ("text", "$text") ].

(** The chain of conditionals that shapes the value; the casts of the
    source do nothing at run time. *)
Definition refinedValue (operator : string) (v : value) : value :=
  if String.eqb operator "in" || String.eqb operator "notIn" then v
  else if String.eqb operator "regex" then v
  else if String.eqb operator "text" then VObj KPlain {[ "$search" := v ]}
  else v.

(** The first statement of [where]: when [this.filter[field]] is falsy the
    field gets an empty sub-document.  A name inherited from
    [Object.prototype] reads as a built-in, which is truthy. *)
Definition init_field (f : gmap string value) (field : string) : gmap string value :=
  if truthy (get f field) then f else <[field := VObj KPlain ∅]> f.

(** The last statement of [where],
    [this.filter[field][mongoOperator] = refinedValue], on the filter [f1]
    the first statement left.  The object under the field is written in
    place (the model, which holds values by content, shows the write under
    this field); when the field is not an own property of the filter, the
    object read is the member of [Object.prototype] of that name, and the
    write lands on it. *)
Definition write_operator (qb : state) (f1 : gmap string value)
    (field key : string) (refined : value) : outcome state :=
  match f1 !! field with
  | Some target =>
      sub ←← set_property target key refined ;;
      Ok (set_filter qb (<[field := sub]> f1))
  | None => BuiltinWrite field key refined
  end.

(** [where(field, operator, value)].  The lookup [mongoOperatorMap[operator]]
    finds the token of the table, or a member of [Object.prototype], which
    is truthy and becomes the key by its text, or [undefined]. *)
Definition where_ (qb : state) (field operator : string) (v : value) : outcome state :=
  let f1 := init_field (filter qb) field in
  match mongoOperatorMap !! operator with
  | Some mongoOperator =>
      if truthy (VStr mongoOperator) then
        write_operator qb f1 field mongoOperator (refinedValue operator v)
      else Ok (set_filter qb f1)
  | None =>
      if inherited operator then
        write_operator qb f1 field (builtin_source operator) (refinedValue operator v)
      else Ok (set_filter qb f1)
  end.

(** [whereId(_id)]. *)
Definition whereId (qb : state) (_id : value) : state :=
  set_filter qb (<["_id" := _id]> (filter qb)).

(** [and], [or], [nor]: the combinator key is assigned the list. *)
Definition and (qb : state) (condition : list value) : state :=
  set_filter qb (<["$and" := array condition]> (filter qb)).

Definition or (qb : state) (condition : list value) : state :=
  set_filter qb (<["$or" := array condition]> (filter qb)).

Definition nor (qb : state) (conditions : list value) : state :=
  set_filter qb (<["$nor" := array conditions]> (filter qb)).

(** [not(field, condition)]. *)
Definition not (qb : state) (field : string) (condition : value) : state :=
  set_filter qb (<[field := VObj KPlain {[ "$not" := condition ]}]> (filter qb)).

(** [limit], [skip]. *)
Definition limit (qb : state) (n : Z) : state :=
  set_options qb (<["limit" := VNum n]> (options qb)).

Definition skip (qb : state) (n : Z) : state :=
  set_options qb (<["skip" := VNum n]> (options qb)).

(** [populate(...fields)]: [push(...fields)]. *)
Definition populate (qb : state) (fields : list string) : state :=
  mk (filter qb) (options qb) (populatedFields qb ++ fields) (session qb)
     (sort qb) (projection qb) (aggregationPipeline qb) (page qb) (pageSize qb).

Definition sortBy (qb : state) (s : value) : state :=
  mk (filter qb) (options qb) (populatedFields qb) (session qb) s
     (projection qb) (aggregationPipeline qb) (page qb) (pageSize qb).

Definition select (qb : state) (p : gmap string value) : state :=
  mk (filter qb) (options qb) (populatedFields qb) (session qb) (sort qb)
     p (aggregationPipeline qb) (page qb) (pageSize qb).

(** [aggregate(stage)]: [push(stage)]. *)
Definition aggregate (qb : state) (stage : value) : state :=
  mk (filter qb) (options qb) (populatedFields qb) (session qb) (sort qb)
     (projection qb) (aggregationPipeline qb ++ [stage]) (page qb) (pageSize qb).

(** [paginate(page, pageSize)]: the four assignments, in order;
    [(page - 1) * pageSize] is computed in doubles. *)
Definition paginate (qb : state) (p s : Z) : state :=
  let o1 := <["skip" := VNumber (number_mul (number_sub (Finite p) (Finite 1)) (Finite s))]>
              (options qb) in
  let o2 := <["limit" := VNum s]> o1 in
  mk (filter qb) o2 (populatedFields qb) (session qb) (sort qb)
     (projection qb) (aggregationPipeline qb) p s.

End QueryBuilder.

(** ** Errors and the collaborator *)

(** Modelled from the spec: the error module ([ERROR_CODES] and the class
    [MongridError]) is imported by the builder and is not part of the
    sources at hand.  The three codes are the three kinds of the error
    taxonomy (CountError, ExplainError, QueryExecutionError), under the
    names the builder uses for them. *)
Inductive ERROR_CODES : Type :=
| COUNT_ERROR
| EXPLAIN_ERROR
| QUERY_EXECUTION_ERROR.

(** What is thrown or what a promise is rejected with: an error of the
    driver or of the model, or [new MongridError(message, code, details)]. *)
Inductive thrown : Type :=
| Failure (message : string)
| MongridError (message : string) (code : ERROR_CODES) (details : gmap string value).

(** [error.message]. *)
Definition message (e : thrown) : string :=
  match e with
  | Failure m => m
  | MongridError m _ _ => m
  end.

(** A promise, by the way it settles. *)
Inductive promise (A : Type) : Type :=
| Fulfilled (a : A)
| Rejected (e : thrown).

Arguments Fulfilled {A} a.
Arguments Rejected {A} e.

(** A call of the collaborator either returns or throws on the spot. *)
Inductive completion (A : Type) : Type :=
| Returns (a : A)
| Throws (e : thrown).

Arguments Returns {A} a.
Arguments Throws {A} e.

(** The four operations the dispatcher issues, each with the arguments it
    is given and indexed by what its promise resolves to:
    [getCollection().countDocuments(filter, opts)],
    [getCollection().find(filter, opts).explain(verbosity)],
    [getCollection().aggregate(pipeline, opts).toArray()] and
    [model.find(filter, opts, populatedFields)]. *)
Inductive request : Type → Type :=
| CountDocuments (filter opts : gmap string value) : request Z
| FindExplain (filter opts : gmap string value) (verbosity : string) : request value
| AggregateToArray (pipeline : list value) (opts : gmap string value) : request (list Document)
| ModelFind (filter opts : gmap string value) (populatedFields : list string) : request (list Document).

(** The model and its collection, as the builder sees them: any step of a
    call chain may throw, otherwise the chain returns a promise. *)
Definition Model : Type := ∀ A : Type, request A → completion (promise A).

(** ** The dispatcher *)

Module Dispatcher.
Import QueryBuilder.

(** [try { return call } catch (error) { throw wrap(error) }] in an
    [async] function.  The returned promise is not awaited inside the
    [try]: the function's promise adopts it, rejection included, and the
    [catch] only sees what the call throws on the spot. *)
Definition try_return {A : Type} (r : completion (promise A)) (wrap : thrown → thrown) : promise A :=
  match r with
  | Returns p => p
  | Throws error => Rejected (wrap error)
  end.

Definition count_request (qb : state) : request Z :=
  CountDocuments (filter qb) {[ "session" := session qb ]}.

Definition count_error (qb : state) (error : thrown) : thrown :=
  MongridError ("Count failed: " +:+ message error) COUNT_ERROR
    {[ "filter" := VObj KPlain (filter qb) ]}.

(** [count()]. *)
Definition count (M : Model) (qb : state) : promise Z :=
  try_return (M _ (count_request qb)) (count_error qb).

Definition explain_request (qb : state) (verbosity : string) : request value :=
  FindExplain (filter qb) (<["session" := session qb]> (options qb)) verbosity.

Definition explain_error (qb : state) (error : thrown) : thrown :=
  MongridError ("Explain failed: " +:+ message error) EXPLAIN_ERROR
    (<["options" := VObj KPlain (options qb)]>
       {[ "filter" := VObj KPlain (filter qb) ]}).

(** [explain(verbosity)]; the default argument is ["queryPlanner"]. *)
Definition explain (M : Model) (qb : state) (verbosity : string) : promise value :=
  try_return (M _ (explain_request qb verbosity)) (explain_error qb).

(** The options of the find branch:
    [{ ...options, sort, projection, session }]. *)
Definition find_options (qb : state) : gmap string value :=
  <["session" := session qb]>
    (<["projection" := VObj KPlain (projection qb)]>
       (<["sort" := sort qb]> (options qb))).

(** The branch of [execute]: [aggregationPipeline.length > 0]. *)
Definition execute_request (qb : state) : request (list Document) :=
  if (0 <? Z.of_nat (length (aggregationPipeline qb))) then
    AggregateToArray (aggregationPipeline qb) {[ "session" := session qb ]}
  else
    ModelFind (filter qb) (find_options qb) (populatedFields qb).

Definition execute_error (qb : state) (error : thrown) : thrown :=
  MongridError ("Query execution failed: " +:+ message error) QUERY_EXECUTION_ERROR
    (<["populatedFields" := array (VStr <$> populatedFields qb)]>
       (<["options" := VObj KPlain (options qb)]>
          {[ "filter" := VObj KPlain (filter qb) ]})).

(** [execute()]. *)
Definition execute (M : Model) (qb : state) : promise (list Document) :=
  try_return (M _ (execute_request qb)) (execute_error qb).

(** [results[0]]. *)
Definition first (results : list Document) : value :=
  match results with
  | [] => VUndefined
  | d :: _ => VObj KPlain d
  end.

Definition executeOne_error (qb : state) (error : thrown) : thrown :=
  MongridError ("Query execution failed: " +:+ message error) QUERY_EXECUTION_ERROR
    (<["options" := VObj KPlain (options qb)]>
       {[ "filter" := VObj KPlain (filter qb) ]}).

(** [executeOne()]: here the promise of [execute] is awaited inside the
    [try], so its rejection reaches the [catch]. *)
Definition executeOne (M : Model) (qb : state) : promise value :=
  match execute M qb with
  | Fulfilled results => Fulfilled (js_or (first results) VNull)
  | Rejected error => Rejected (executeOne_error qb error)
  end.

End Dispatcher.

(** ** Notions of the specification *)

(** The eleven operators with their native tokens. *)
Definition native_tokens : list (string * string) :=
  [ ("equal", "$eq"); ("notEqual", "$ne"); ("greaterThan", "$gt");
    ("greaterThanOrEqual", "$gte"); ("lessThan", "$lt");
    ("lessThanOrEqual", "$lte"); ("in", "$in"); ("notIn", "$nin");
    ("exists", "$exists"); ("regex", "$regex"); ("text", "$text") ].

(** An object that takes new properties: neither sealed nor frozen. *)
Definition extensible {V : Type} (k : objkind V) : bool :=
  match k with
  | KSealed _ => false
  | KFrozen _ => false
  | _ => true
  end.

(** Whether [target[key] = v] can be done. *)
Definition accepts (target : value) (key : string) : bool :=
  match target with
  | VObj (KFrozen _) _ => false
  | VObj (KSealed _) props => bool_decide (is_Some (props !! key))
  | VObj _ _ => true
  | _ => false
  end.

(** The sub-document [where] writes into: the own value of the field after
    the first statement, when it is an object that takes new properties.
    It is the empty plain object for a field that read as falsy. *)
Definition sub_document (f : gmap string value) (field : string) : option (objkind value * gmap string value) :=
  match QueryBuilder.init_field f field !! field with
  | Some (VObj k props) => if extensible k then Some (k, props) else None
  | _ => None
  end.

(** The values the builder stores in the filter through its typed methods
    are objects: sub-documents, [ObjectId]s, arrays of filters, negation
    wrappers.  Unless the caller has sealed or frozen the one it passes,
    they take new properties. *)
Definition is_extensible_object (v : value) : bool :=
  match v with
  | VObj k _ => extensible k
  | _ => false
  end.

Definition object_valued (f : gmap string value) : Prop :=
  map_Forall (λ _ v, is_extensible_object v = true) f.

(** [typeof v === 'number'], and the sign of a number. *)
Definition is_number (v : value) : bool :=
  match v with
  | VNum _ => true
  | VInfinity _ => true
  | VNaN => true
  | _ => false
  end.

Definition negative_number (v : value) : bool :=
  match v with
  | VNum n => n <? 0
  | VInfinity negative => negative
  | _ => false
  end.

(** IEEE 754 rounding of an integer to binary64, by the Standard Library's
    specification of floating-point numbers, read back as a number. *)
Definition binary64_of_Z (z : Z) : number :=
  match binary_normalize 53 1024 z 0 false with
  | S754_zero _ => Finite 0
  | S754_infinity s => Infinite s
  | S754_nan => NotANumber
  | S754_finite s m e =>
      Finite ((if s then -1 else 1) *
              (if 0 <=? e then Z.pos m * 2 ^ e else Z.pos m / 2 ^ (- e)))
  end.

(** Collaborators to run the dispatcher against: one whose every operation
    returns a promise that is rejected with [error], one whose every call
    throws [error] on the spot, and one that answers. *)
Definition rejecting (error : thrown) : Model :=
  λ A _, Returns (Rejected error).

Definition throwing (error : thrown) : Model :=
  λ A _, Throws error.

(** A collaborator whose collection cannot be had ([getCollection] throws
    [error]) while the [find] of the model answers. *)
Definition collection_down (error : thrown) (docs : list Document) : Model :=
  λ A r,
    match r in request T return completion (promise T) with
    | CountDocuments _ _ => Throws error
    | FindExplain _ _ _ => Throws error
    | AggregateToArray _ _ => Throws error
    | ModelFind _ _ _ => Returns (Fulfilled docs)
    end.

Definition answering (n : Z) (plan : value) (docs : list Document) : Model :=
  λ A r,
    match r in request T return completion (promise T) with
    | CountDocuments _ _ => Returns (Fulfilled n)
    | FindExplain _ _ _ => Returns (Fulfilled plan)
    | AggregateToArray _ _ => Returns (Fulfilled docs)
    | ModelFind _ _ _ => Returns (Fulfilled docs)
    end.

(** ** Chains of builder calls *)

(** The chainable methods, as the calls of a fluent chain
    [builder.where(...).limit(...)...]. *)
Inductive call : Type :=
| CSetSession (s : value)
| CWhere (field operator : string) (v : value)
| CWhereId (_id : value)
| CAnd (condition : list value)
| COr (condition : list value)
| CNot (field : string) (condition : value)
| CNor (conditions : list value)
| CLimit (n : Z)
| CSkip (n : Z)
| CPopulate (fields : list string)
| CSortBy (s : value)
| CSelect (p : gmap string value)
| CAggregate (stage : value)
| CPaginate (p s : Z).

(** One call on the builder; every method returns [this]. *)
Definition invoke (qb : QueryBuilder.state) (c : call) : outcome QueryBuilder.state :=
  match c with
  | CSetSession s => Ok (QueryBuilder.setSession qb s)
  | CWhere field operator v => QueryBuilder.where_ qb field operator v
  | CWhereId _id => Ok (QueryBuilder.whereId qb _id)
  | CAnd condition => Ok (QueryBuilder.and qb condition)
  | COr condition => Ok (QueryBuilder.or qb condition)
  | CNot field condition => Ok (QueryBuilder.not qb field condition)
  | CNor conditions => Ok (QueryBuilder.nor qb conditions)
  | CLimit n => Ok (QueryBuilder.limit qb n)
  | CSkip n => Ok (QueryBuilder.skip qb n)
  | CPopulate fields => Ok (QueryBuilder.populate qb fields)
  | CSortBy s => Ok (QueryBuilder.sortBy qb s)
  | CSelect p => Ok (QueryBuilder.select qb p)
  | CAggregate stage => Ok (QueryBuilder.aggregate qb stage)
  | CPaginate p s => Ok (QueryBuilder.paginate qb p s)
  end.

(** The calls of a chain, left to right; an exception ends the chain. *)
Fixpoint chain (qb : QueryBuilder.state) (calls : list call) : outcome QueryBuilder.state :=
  match calls with
  | [] => Ok qb
  | c :: rest => obind (invoke qb c) (λ qb', chain qb' rest)
  end.


(** The stages the [aggregate] calls of a chain pass, in call order. *)
Definition stages (calls : list call) : list value :=
  flat_map (λ c, match c with CAggregate stage => [stage] | _ => [] end) calls.

(** The calls that assign into the filter, and the ones that assign into
    what [explain] reads. *)
Definition writes_filter (c : call) : bool :=
  match c with
  | CWhere _ _ _ | CWhereId _ | CAnd _ | COr _ | CNot _ _ | CNor _ => true
  | _ => false
  end.

Definition writes_session (c : call) : bool :=
  match c with
  | CSetSession _ => true
  | _ => false
  end.

Definition writes_options (c : call) : bool :=
  match c with
  | CLimit _ | CSkip _ | CPaginate _ _ => true
  | _ => false
  end.

(** The options object a request carries. *)
Definition request_opts {A : Type} (r : request A) : gmap string value :=
  match r with
  | CountDocuments _ opts => opts
  | FindExplain _ opts _ => opts
  | AggregateToArray _ opts => opts
  | ModelFind _ opts _ => opts
  end.

(** ** The operator table *)

Section OperatorTable.

Lemma mongoOperatorMap_native_tokens (operator token : string) :
  QueryBuilder.mongoOperatorMap !! operator = Some token ↔
  (operator, token) ∈ native_tokens.
Proof.
  unfold QueryBuilder.mongoOperatorMap.
  rewrite <- elem_of_list_to_map; [done|].
  apply (bool_decide_unpack _). by vm_compute.
Qed.

(** Every token is a non-empty string, so the guard [if (mongoOperator)]
    only tests whether the operator is in the table. *)
Lemma mongoOperatorMap_truthy (operator token : string) :
  QueryBuilder.mongoOperatorMap !! operator = Some token →
  truthy (VStr token) = true.
Proof.
  rewrite mongoOperatorMap_native_tokens. unfold native_tokens.
  rewrite !elem_of_cons, elem_of_nil.
  intros H; repeat destruct H as [H|H]; try done; by inversion H.
Qed.


End OperatorTable.

(** ** [where] *)

Section Where.
Implicit Types (qb : QueryBuilder.state) (field operator token : string) (v : value).

Lemma inherited_elem_of (name : string) :
  inherited name = false ↔ name ∉ object_prototype_names.
Proof.
  unfold inherited. rewrite bool_decide_eq_false. done.
Qed.

Lemma get_own (f : gmap string value) field (x : value) :
  f !! field = Some x → get f field = x.
Proof. intros H. unfold get. by rewrite H. Qed.


Lemma get_init_field_truthy (f : gmap string value) field :
  truthy (get (QueryBuilder.init_field f field) field) = true.
Proof.
  unfold QueryBuilder.init_field.
  destruct (truthy (get f field)) eqn:E; [done|].
  unfold get. by rewrite lookup_insert_eq.
Qed.


Lemma init_field_object (f : gmap string value) field k props :
  f !! field = Some (VObj k props) →
  QueryBuilder.init_field f field = f.
Proof. intros H. unfold QueryBuilder.init_field. by rewrite (get_own _ _ _ H). Qed.

(** After the first statement the field is an own property, unless its
    name is inherited and the filter does not own it. *)
Lemma init_field_lookup_None (f : gmap string value) field :
  QueryBuilder.init_field f field !! field = None →
  f !! field = None ∧ inherited field = true.
Proof.
  unfold QueryBuilder.init_field, get.
  destruct (f !! field) as [x|] eqn:E.
  - destruct (truthy x); [by rewrite E|by rewrite lookup_insert_eq].
  - destruct (inherited field); simpl; [by rewrite E|by rewrite lookup_insert_eq].
Qed.

Lemma set_property_extensible k (props : gmap string value) (key : string) (x : value) :
  extensible k = true →
  set_property (VObj k props) key x = Ok (VObj k (<[key := x]> props)).
Proof. by destruct k. Qed.

Lemma set_property_accepts (target : value) (key : string) (x : value) :
  set_property target key x = TypeError ↔ accepts target key = false.
Proof.
  destruct target as [| | | | | | |k props]; simpl; try done.
  destruct k; simpl; try done.
  rewrite bool_decide_eq_false.
  destruct (props !! key) as [y|]; split; try done.
  intros H. destruct H. eauto.
Qed.

Lemma set_property_outcome (target : value) (key : string) (x : value) :
  set_property target key x = TypeError ∨
  ∃ k props, target = VObj k props ∧
             set_property target key x = Ok (VObj k (<[key := x]> props)).
Proof.
  destruct target as [| | | | | | |k props]; simpl; try (by left).
  destruct k; simpl; try (right; eauto; fail); try (by left).
  destruct (props !! key); [right; eauto|by left].
Qed.

(** With an operator of the table, [where] is the write of the token. *)
Lemma where_supported qb field operator token v :
  QueryBuilder.mongoOperatorMap !! operator = Some token →
  QueryBuilder.where_ qb field operator v =
    QueryBuilder.write_operator qb
      (QueryBuilder.init_field (QueryBuilder.filter qb) field) field token
      (QueryBuilder.refinedValue operator v).
Proof.
  intros H. unfold QueryBuilder.where_. rewrite H.
  by rewrite (mongoOperatorMap_truthy _ _ H).
Qed.

(** With an operator that the table neither owns nor inherits, only the
    first statement runs. *)
Lemma where_unsupported qb field operator v :
  QueryBuilder.mongoOperatorMap !! operator = None →
  inherited operator = false →
  QueryBuilder.where_ qb field operator v =
    Ok (QueryBuilder.set_filter qb (QueryBuilder.init_field (QueryBuilder.filter qb) field)).
Proof. intros H Hi. unfold QueryBuilder.where_. by rewrite H, Hi. Qed.


Lemma write_operator_frame qb qb' (f1 : gmap string value) field (key : string) (x : value) :
  QueryBuilder.write_operator qb f1 field key x = Ok qb' →
  ∃ sub, qb' = QueryBuilder.set_filter qb (<[field := sub]> f1).
Proof.
  unfold QueryBuilder.write_operator.
  destruct (f1 !! field) as [target|]; [|done].
  destruct (set_property target key x) as [sub| |]; simpl; [|done|done].
  intros [= <-]. eauto.
Qed.

(** A successful [where] touches nothing but the filter, and in the filter
    nothing but the field. *)
Lemma where_frame qb qb' field operator v :
  QueryBuilder.where_ qb field operator v = Ok qb' →
  (∃ f', qb' = QueryBuilder.set_filter qb f') ∧
  ∀ other, other ≠ field →
    QueryBuilder.filter qb' !! other = QueryBuilder.filter qb !! other.
Proof.
  intros H.
  assert (Hinit : ∀ other, other ≠ field →
            QueryBuilder.init_field (QueryBuilder.filter qb) field !! other =
            QueryBuilder.filter qb !! other).
  { intros other Hne. unfold QueryBuilder.init_field.
    destruct (truthy _); [done|]. by rewrite lookup_insert_ne. }
  assert (Hcases :
    (∃ sub, qb' = QueryBuilder.set_filter qb
                    (<[field := sub]> (QueryBuilder.init_field (QueryBuilder.filter qb) field))) ∨
    qb' = QueryBuilder.set_filter qb (QueryBuilder.init_field (QueryBuilder.filter qb) field)).
  { unfold QueryBuilder.where_ in H.
    destruct (QueryBuilder.mongoOperatorMap !! operator) as [token|].
    - destruct (truthy (VStr token)).
      + left. by eapply write_operator_frame.
      + right. by injection H as <-.
    - destruct (inherited operator).
      + left. by eapply write_operator_frame.
      + right. by injection H as <-. }
  destruct Hcases as [[sub ->]| ->]; (split; [eauto|]); intros other Hne; simpl.
  - rewrite lookup_insert_ne by done. by apply Hinit.
  - by apply Hinit.
Qed.


Lemma sub_document_insert (f : gmap string value) field k props :
  extensible k = true →
  sub_document (<[field := VObj k props]> f) field = Some (k, props).
Proof.
  intros Hk. unfold sub_document.
  rewrite (init_field_object _ field k props) by apply lookup_insert_eq.
  by rewrite lookup_insert_eq, Hk.
Qed.


Lemma insert_init_field (f : gmap string value) field (sub : value) :
  <[field := sub]> (QueryBuilder.init_field f field) = <[field := sub]> f.
Proof.
  unfold QueryBuilder.init_field. destruct (truthy (get f field)); [done|].
  apply insert_insert_eq.
Qed.

Lemma set_filter_set_filter qb (f g : gmap string value) :
  QueryBuilder.set_filter (QueryBuilder.set_filter qb f) g = QueryBuilder.set_filter qb g.
Proof. done. Qed.

(** Writing a key into the sub-document, when there is one. *)
Lemma write_operator_sub_document qb field (key : string) (x : value) k props :
  sub_document (QueryBuilder.filter qb) field = Some (k, props) →
  QueryBuilder.write_operator qb
    (QueryBuilder.init_field (QueryBuilder.filter qb) field) field key x =
    Ok (QueryBuilder.set_filter qb
          (<[field := VObj k (<[key := x]> props)]> (QueryBuilder.filter qb))).
Proof.
  intros Hsub. unfold QueryBuilder.write_operator.
  unfold sub_document in Hsub.
  destruct (_ !! field) as [[| | | | | | |k' props']|]; try done.
  destruct (extensible k') eqn:Hk; [|done]. injection Hsub as -> ->.
  rewrite (set_property_extensible _ _ _ _ Hk). simpl.
  by rewrite insert_init_field.
Qed.

(** [where] with an operator of the table returns, and writes the token
    into the sub-document, whenever there is one to write into. *)
Lemma where_writes qb field operator token v k props :
  QueryBuilder.mongoOperatorMap !! operator = Some token →
  sub_document (QueryBuilder.filter qb) field = Some (k, props) →
  QueryBuilder.where_ qb field operator v =
    Ok (QueryBuilder.set_filter qb
          (<[field := VObj k (<[token := QueryBuilder.refinedValue operator v]> props)]>
             (QueryBuilder.filter qb))).
Proof.
  intros Hop Hsub. rewrite (where_supported _ _ _ _ _ Hop).
  by apply write_operator_sub_document.
Qed.

(** On a name that the filter inherits and does not own, nothing is stored
    in the filter: the write lands on the built-in. *)
Lemma where_inherited_field qb field operator token v :
  QueryBuilder.mongoOperatorMap !! operator = Some token →
  QueryBuilder.filter qb !! field = None →
  inherited field = true →
  QueryBuilder.where_ qb field operator v =
    BuiltinWrite field token (QueryBuilder.refinedValue operator v).
Proof.
  intros Hop Hnone Hi. rewrite (where_supported _ _ _ _ _ Hop).
  unfold QueryBuilder.write_operator, QueryBuilder.init_field, get.
  rewrite Hnone, Hi. simpl. by rewrite Hnone.
Qed.

End Where.

(** ** Properties of [where] and [not] *)

Section Predicates.
Implicit Types (qb : QueryBuilder.state) (field operator token : string) (v : value).


Lemma object_valued_new : object_valued (QueryBuilder.filter QueryBuilder.new).
Proof. apply map_Forall_empty. Qed.




Lemma object_valued_not qb field condition :
  object_valued (QueryBuilder.filter qb) →
  object_valued (QueryBuilder.filter (QueryBuilder.not qb field condition)).
Proof. intros Hf. by apply map_Forall_insert_2. Qed.










(** The equation of C10 also holds where [where] raises, and for the
    operators that are not in the table. *)
Lemma where_same_operator_idempotent qb field operator v1 v2 :
  QueryBuilder.filter qb !! field ≠ None ∨ inherited field = false →
  inherited operator = false →
  obind (QueryBuilder.where_ qb field operator v1)
        (λ qb1, QueryBuilder.where_ qb1 field operator v2) =
    QueryBuilder.where_ qb field operator v2.
Proof.
  intros Hfield Hi.
  assert (Hown : ∃ target,
            QueryBuilder.init_field (QueryBuilder.filter qb) field !! field = Some target).
  { destruct (QueryBuilder.init_field _ field !! field) as [target|] eqn:E; [eauto|].
    apply init_field_lookup_None in E as [E1 E2].
    destruct Hfield as [H|H]; [done|congruence]. }
  destruct Hown as [target Htarget].
  destruct (QueryBuilder.mongoOperatorMap !! operator) as [token|] eqn:Hop.
  - rewrite !(where_supported _ _ _ _ _ Hop).
    set (f1 := QueryBuilder.init_field (QueryBuilder.filter qb) field) in *.
    unfold QueryBuilder.write_operator. rewrite Htarget.
    destruct (set_property_outcome target token (QueryBuilder.refinedValue operator v1))
      as [E1|(k & props & -> & E1)].
    + rewrite E1. simpl.
      apply set_property_accepts in E1.
      by rewrite (proj2 (set_property_accepts _ _ (QueryBuilder.refinedValue operator v2)) E1).
    + rewrite E1. simpl.
      rewrite (where_supported _ _ _ _ _ Hop). simpl.
      rewrite (init_field_object
                 (<[field := VObj k (<[token := QueryBuilder.refinedValue operator v1]> props)]> f1)
                 field k (<[token := QueryBuilder.refinedValue operator v1]> props))
        by apply lookup_insert_eq.
      unfold QueryBuilder.write_operator. rewrite lookup_insert_eq.
      destruct k; simpl in *; try done;
        rewrite ?lookup_insert_eq; simpl;
        try (destruct (props !! token); [|done]; simpl);
        by rewrite set_filter_set_filter, !insert_insert_eq.
  - rewrite !where_unsupported by done. simpl.
    rewrite where_unsupported by done. simpl.
    rewrite set_filter_set_filter. do 2 f_equal.
    unfold QueryBuilder.init_field at 1.
    by rewrite get_init_field_truthy.
Qed.




(** C3: with an operator that is not in the table, [where] on a field that
    has no constraint does not leave the filter as it was: the first
    statement has already stored an empty sub-document under the field. *)
Theorem where_unknown_operator_unset_field :
  QueryBuilder.mongoOperatorMap !! "between" = None ∧
  QueryBuilder.filter QueryBuilder.new = ∅ ∧
  QueryBuilder.where_ QueryBuilder.new "age" "between" (VNum 5) =
    Ok (QueryBuilder.set_filter QueryBuilder.new {[ "age" := VObj KPlain ∅ ]}) ∧
  ({[ "age" := VObj KPlain ∅ ]} : gmap string value) ≠ ∅.
Proof.
  split; [reflexivity|]. split; [reflexivity|]. split; [reflexivity|].
  apply insert_non_empty.
Qed.

(** What holds of an operator that the table neither owns nor inherits:
    the call never raises, it writes no token, and it leaves the filter as
    it was when the field already reads as a truthy value. *)
Lemma where_unknown_operator qb field operator v :
  QueryBuilder.mongoOperatorMap !! operator = None →
  inherited operator = false →
  QueryBuilder.where_ qb field operator v =
    Ok (QueryBuilder.set_filter qb
          (if truthy (get (QueryBuilder.filter qb) field)
           then QueryBuilder.filter qb
           else <[field := VObj KPlain ∅]> (QueryBuilder.filter qb))).
Proof. intros H Hi. by rewrite where_unsupported. Qed.

End Predicates.

(** ** Options and pipeline *)

Section Options.
Implicit Types (qb : QueryBuilder.state).

(** [round_double] is the rounding of IEEE 754 binary64 as the Standard
    Library specifies it, here on integers around the ends of the exact
    range, around ties and around the overflow threshold. *)
Example round_double_binary64 :
  Forall (λ z, round_double z = binary64_of_Z z)
    [ 0; 1; -1; 40; 2 ^ 53 - 1; 2 ^ 53; 2 ^ 53 + 1; 2 ^ 53 + 2; 2 ^ 53 + 3;
      - (2 ^ 53 + 1); - (2 ^ 53 + 3); 2 ^ 54 + 2; 2 ^ 54 + 5; 2 ^ 54 + 6;
      2 ^ 60 + 12345678901; 3 ^ 40; - (3 ^ 50); 7 ^ 100; 10 ^ 308;
      (2 ^ 53 - 1) * 2 ^ 971; (2 ^ 53 - 1) * 2 ^ 971 + 2 ^ 969;
      2 ^ 1024 - 2 ^ 970 - 1; 2 ^ 1024 - 2 ^ 970; 2 ^ 1024 - 1; 2 ^ 1024;
      - (2 ^ 1024); 10 ^ 309; - (10 ^ 309) ].
Proof. repeat (constructor; [by vm_compute|]). constructor. Qed.

(** The integers up to [2 ^ 53] in magnitude are doubles. *)
Lemma round_double_exact (z : Z) :
  Z.abs z ≤ 2 ^ 53 → round_double z = Finite z.
Proof.
  intros H. unfold round_double.
  destruct (Z.ltb_spec (Z.abs z) (2 ^ 53)) as [Hlt|Hge]; [done|].
  assert (Habs : Z.abs z = 2 ^ 53) by lia.
  destruct (Z.abs_eq_or_opp z) as [E|E]; rewrite E in Habs.
  - rewrite Habs. by vm_compute.
  - assert (Hz : z = - 2 ^ 53) by lia. rewrite Hz. by vm_compute.
Qed.

(** Within that range the arithmetic of [paginate] is exact. *)
Lemma paginate_skip_exact (p s : Z) :
  Z.abs (p - 1) ≤ 2 ^ 53 →
  Z.abs ((p - 1) * s) ≤ 2 ^ 53 →
  VNumber (number_mul (number_sub (Finite p) (Finite 1)) (Finite s)) = VNum ((p - 1) * s).
Proof.
  intros H1 H2. simpl. rewrite (round_double_exact _ H1). simpl.
  by rewrite (round_double_exact _ H2).
Qed.

(** C5, as stated, fails beyond the integers a double holds exactly:
    [paginate(3002399751580332, 3)] stores the skip [2 ^ 53], while
    [(p - 1) * s] is [2 ^ 53 + 1]. *)
Lemma paginate_skip_rounded :
  QueryBuilder.options (QueryBuilder.paginate QueryBuilder.new 3002399751580332 3) !! "skip" =
    Some (VNum 9007199254740992) ∧
  (3002399751580332 - 1) * 3 = 9007199254740993 ∧
  QueryBuilder.options (QueryBuilder.paginate QueryBuilder.new 3002399751580332 3) !! "skip" ≠
    Some (VNum ((3002399751580332 - 1) * 3)).
Proof.
  assert (H : QueryBuilder.options
                (QueryBuilder.paginate QueryBuilder.new 3002399751580332 3) !! "skip" =
              Some (VNum 9007199254740992)).
  { unfold QueryBuilder.paginate. simpl QueryBuilder.options.
    rewrite lookup_insert_ne by done. rewrite lookup_insert_eq. by vm_compute. }
  split; [exact H|]. split; [reflexivity|].
  rewrite H. intros E. vm_compute in E. discriminate E.
Qed.

(** C5: for integers [p] and [s] such that [p - 1] and [(p - 1) * s] are at
    most [2 ^ 53] in magnitude, [paginate(p, s)] assigns skip = (p - 1) * s
    and limit = s in the options, over whatever skip and limit were there;
    [limit(n)] after it assigns limit = n and leaves every other option, the
    skip of [paginate] among them, as it was. *)
Theorem paginate_then_limit qb (p s n : Z) :
  Z.abs (p - 1) ≤ 2 ^ 53 →
  Z.abs ((p - 1) * s) ≤ 2 ^ 53 →
  QueryBuilder.options (QueryBuilder.paginate qb p s) =
    <["limit" := VNum s]> (<["skip" := VNum ((p - 1) * s)]> (QueryBuilder.options qb)) ∧
  QueryBuilder.options (QueryBuilder.paginate qb p s) !! "skip" = Some (VNum ((p - 1) * s)) ∧
  QueryBuilder.options (QueryBuilder.paginate qb p s) !! "limit" = Some (VNum s) ∧
  QueryBuilder.options (QueryBuilder.limit (QueryBuilder.paginate qb p s) n) !! "limit" =
    Some (VNum n) ∧
  QueryBuilder.options (QueryBuilder.limit (QueryBuilder.paginate qb p s) n) !! "skip" =
    Some (VNum ((p - 1) * s)) ∧
  ∀ key, key ≠ "limit" →
    QueryBuilder.options (QueryBuilder.limit (QueryBuilder.paginate qb p s) n) !! key =
    QueryBuilder.options (QueryBuilder.paginate qb p s) !! key.
Proof.
  intros H1 H2.
  assert (Hp : QueryBuilder.options (QueryBuilder.paginate qb p s) =
               <["limit" := VNum s]>
                 (<["skip" := VNum ((p - 1) * s)]> (QueryBuilder.options qb))).
  { rewrite <- (paginate_skip_exact p s H1 H2). reflexivity. }
  assert (Hl : QueryBuilder.options (QueryBuilder.limit (QueryBuilder.paginate qb p s) n) =
               <["limit" := VNum n]> (QueryBuilder.options (QueryBuilder.paginate qb p s)))
    by reflexivity.
  rewrite Hl, Hp. repeat split.
  - rewrite lookup_insert_ne by done. apply lookup_insert_eq.
  - apply lookup_insert_eq.
  - apply lookup_insert_eq.
  - rewrite !lookup_insert_ne by done. apply lookup_insert_eq.
  - intros key Hkey. by rewrite (lookup_insert_ne _ "limit" key (VNum n)).
Qed.

(** Page 3 of size 20, then a limit of 5. *)
Lemma paginate_3_20_limit_5 :
  QueryBuilder.options
    (QueryBuilder.limit (QueryBuilder.paginate QueryBuilder.new 3 20) 5) !! "limit" =
    Some (VNum 5) ∧
  QueryBuilder.options
    (QueryBuilder.limit (QueryBuilder.paginate QueryBuilder.new 3 20) 5) !! "skip" =
    Some (VNum 40).
Proof.
  pose proof (paginate_then_limit QueryBuilder.new 3 20 5) as H.
  destruct H as (_ & _ & _ & Hl & Hs & _); [by vm_compute|by vm_compute|].
  split; [exact Hl|exact Hs].
Defined.

(** [aggregate] appends: after a run of calls the pipeline is the old one
    followed by the stages in call order. *)
Lemma aggregate_appends qb (stages : list value) :
  QueryBuilder.aggregationPipeline (foldl QueryBuilder.aggregate qb stages) =
  QueryBuilder.aggregationPipeline qb ++ stages.
Proof.
  revert qb. induction stages as [|stage stages IH]; intros qb; simpl.
  - by rewrite app_nil_r.
  - rewrite IH. simpl. by rewrite <- app_assoc.
Qed.

Lemma aggregate_keeps_session qb (stages : list value) :
  QueryBuilder.session (foldl QueryBuilder.aggregate qb stages) = QueryBuilder.session qb.
Proof.
  revert qb. induction stages as [|stage stages IH]; intros qb; simpl; [done|].
  by rewrite IH.
Qed.

End Options.

(** ** The dispatcher *)

Section Dispatch.
Implicit Types (M : Model) (qb : QueryBuilder.state) (error : thrown).

Lemma pipeline_length_positive qb :
  QueryBuilder.aggregationPipeline qb ≠ [] →
  (0 <? Z.of_nat (length (QueryBuilder.aggregationPipeline qb))) = true.
Proof.
  intros Hne. destruct (QueryBuilder.aggregationPipeline qb); [done|].
  simpl length. apply Z.ltb_lt. lia.
Qed.

(** C4: when the pipeline has a stage, the one operation [execute] issues
    is the aggregation of the pipeline as it stands (the stages in the order
    [aggregate] appended them) under the session of the builder; the
    documents the aggregation resolves to are the result; and any builder
    with the same pipeline and session issues the same operation, whatever
    its filter, sort, projection, options and populated fields. *)
Theorem execute_aggregation_precedence M qb :
  QueryBuilder.aggregationPipeline qb ≠ [] →
  let issued :=
    AggregateToArray (QueryBuilder.aggregationPipeline qb)
      {[ "session" := QueryBuilder.session qb ]} in
  Dispatcher.execute_request qb = issued ∧
  Dispatcher.execute M qb = Dispatcher.try_return (M _ issued) (Dispatcher.execute_error qb) ∧
  (∀ docs, M _ issued = Returns (Fulfilled docs) → Dispatcher.execute M qb = Fulfilled docs) ∧
  (∀ stages,
     Dispatcher.execute_request (foldl QueryBuilder.aggregate qb stages) =
       AggregateToArray (QueryBuilder.aggregationPipeline qb ++ stages)
         {[ "session" := QueryBuilder.session qb ]}) ∧
  (∀ qb',
     QueryBuilder.aggregationPipeline qb' = QueryBuilder.aggregationPipeline qb →
     QueryBuilder.session qb' = QueryBuilder.session qb →
     Dispatcher.execute_request qb' = issued).
Proof.
  intros Hne issued.
  assert (Hreq : Dispatcher.execute_request qb = issued).
  { unfold Dispatcher.execute_request. by rewrite pipeline_length_positive. }
  split; [exact Hreq|]. split; [|split; [|split]].
  - unfold Dispatcher.execute. by rewrite Hreq.
  - intros docs Hdocs. unfold Dispatcher.execute. by rewrite Hreq, Hdocs.
  - intros stages. unfold Dispatcher.execute_request.
    rewrite pipeline_length_positive.
    + by rewrite aggregate_appends, aggregate_keeps_session.
    + rewrite aggregate_appends. intros [H _]%app_eq_nil. by apply Hne.
  - intros qb' Hp Hs. unfold Dispatcher.execute_request.
    rewrite pipeline_length_positive by (by rewrite Hp).
    by rewrite Hp, Hs.
Qed.

Lemma execute_aggregation_precedence_witness :
  let qb :=
    QueryBuilder.aggregate
      (QueryBuilder.aggregate
         (QueryBuilder.limit
            (QueryBuilder.not QueryBuilder.new "age" (VObj KPlain {[ "$lt" := VNum 5 ]})) 7)
         (VObj KPlain {[ "$match" := VObj KPlain {[ "age" := VNum 30 ]} ]}))
      (VObj KPlain {[ "$limit" := VNum 2 ]}) in
  Dispatcher.execute_request qb =
    AggregateToArray
      [ VObj KPlain {[ "$match" := VObj KPlain {[ "age" := VNum 30 ]} ]};
        VObj KPlain {[ "$limit" := VNum 2 ]} ]
      {[ "session" := VNull ]}.
Proof.
  intros qb.
  refine (proj1 (execute_aggregation_precedence (answering 0 VNull []) qb _)).
  discriminate.
Defined.

(** Without a stage, [execute] issues the find of the model. *)
Lemma execute_find_branch qb :
  QueryBuilder.aggregationPipeline qb = [] →
  Dispatcher.execute_request qb =
    ModelFind (QueryBuilder.filter qb) (Dispatcher.find_options qb)
      (QueryBuilder.populatedFields qb).
Proof. intros H. unfold Dispatcher.execute_request. by rewrite H. Qed.

(** What the [try] blocks of [count], [explain] and [execute] do with the
    two ways a collaborator fails: an exception thrown by the call is
    wrapped, the rejection of the promise the call returns is handed on as
    it is. *)
Lemma try_return_throws {A : Type} error (wrap : thrown → thrown) :
  Dispatcher.try_return (A := A) (Throws error) wrap = Rejected (wrap error).
Proof. done. Qed.

Lemma try_return_rejected {A : Type} error (wrap : thrown → thrown) :
  Dispatcher.try_return (A := A) (Returns (Rejected error)) wrap = Rejected error.
Proof. done. Qed.

Lemma count_wraps_throw M qb error :
  M _ (Dispatcher.count_request qb) = Throws error →
  Dispatcher.count M qb =
    Rejected (MongridError ("Count failed: " +:+ message error) COUNT_ERROR
                {[ "filter" := VObj KPlain (QueryBuilder.filter qb) ]}).
Proof. intros H. unfold Dispatcher.count. by rewrite H. Qed.

Lemma count_hands_on_rejection M qb error :
  M _ (Dispatcher.count_request qb) = Returns (Rejected error) →
  Dispatcher.count M qb = Rejected error.
Proof. intros H. unfold Dispatcher.count. by rewrite H. Qed.

Lemma explain_hands_on_rejection M qb verbosity error :
  M _ (Dispatcher.explain_request qb verbosity) = Returns (Rejected error) →
  Dispatcher.explain M qb verbosity = Rejected error.
Proof. intros H. unfold Dispatcher.explain. by rewrite H. Qed.

Lemma execute_hands_on_rejection M qb error :
  M _ (Dispatcher.execute_request qb) = Returns (Rejected error) →
  Dispatcher.execute M qb = Rejected error.
Proof. intros H. unfold Dispatcher.execute. by rewrite H. Qed.

(** C6: a collaborator whose promises are rejected with a driver error makes
    [count], [explain] and [execute] reject with that very error, not with a
    [MongridError] of their kind: the promise is returned from the [try]
    without being awaited.  Only an exception thrown by the call itself is
    wrapped. *)
Theorem rejection_reaches_caller_unwrapped :
  let error := Failure "connection lost" in
  Dispatcher.count (rejecting error) QueryBuilder.new = Rejected error ∧
  Dispatcher.explain (rejecting error) QueryBuilder.new "queryPlanner" = Rejected error ∧
  Dispatcher.execute (rejecting error) QueryBuilder.new = Rejected error ∧
  Dispatcher.count (throwing error) QueryBuilder.new =
    Rejected (MongridError "Count failed: connection lost" COUNT_ERROR
                {[ "filter" := VObj KPlain ∅ ]}).
Proof. repeat split. Qed.

(** Every rejection of [executeOne] is a [MongridError] of code
    [QUERY_EXECUTION_ERROR] whose details hold the filter and the options
    and nothing else. *)
Lemma executeOne_rejection M qb error :
  Dispatcher.executeOne M qb = Rejected error →
  ∃ cause,
    Dispatcher.execute M qb = Rejected cause ∧
    error = MongridError ("Query execution failed: " +:+ message cause)
              QUERY_EXECUTION_ERROR
              (<["options" := VObj KPlain (QueryBuilder.options qb)]>
                 {[ "filter" := VObj KPlain (QueryBuilder.filter qb) ]}).
Proof.
  unfold Dispatcher.executeOne.
  destruct (Dispatcher.execute M qb) as [results|cause]; [done|].
  intros [= <-]. by exists cause.
Qed.

(** C7: when [executeOne] fails, its error has the code
    [QUERY_EXECUTION_ERROR] and the filter and the options in its details,
    but no populated fields, which the error of [execute] does carry. *)
Theorem executeOne_error_without_populatedFields :
  let qb := QueryBuilder.populate QueryBuilder.new ["author"] in
  let details : gmap string value :=
    <["options" := VObj KPlain ∅]> {[ "filter" := VObj KPlain ∅ ]} in
  Dispatcher.executeOne (rejecting (Failure "connection lost")) qb =
    Rejected (MongridError "Query execution failed: connection lost"
                QUERY_EXECUTION_ERROR details) ∧
  details !! "populatedFields" = None ∧
  Dispatcher.execute (throwing (Failure "connection lost")) qb =
    Rejected (MongridError "Query execution failed: connection lost"
                QUERY_EXECUTION_ERROR
                (<["populatedFields" := array [VStr "author"]]> details)).
Proof. repeat split. Qed.

(** The double wrap: an exception that [execute] has wrapped is wrapped
    again by [executeOne]. *)
Example executeOne_wraps_twice :
  Dispatcher.executeOne (throwing (Failure "no connection")) QueryBuilder.new =
    Rejected (MongridError "Query execution failed: Query execution failed: no connection"
                QUERY_EXECUTION_ERROR
                (<["options" := VObj KPlain ∅]> {[ "filter" := VObj KPlain ∅ ]})).
Proof. reflexivity. Qed.

(** C8: when [execute] resolves with a list of documents, [executeOne]
    resolves too: with [null] for the empty list and with the first document
    otherwise (a document is an object, so [results[0] || null] is
    [results[0]]). *)
Theorem executeOne_first_or_null M qb (results : list Document) :
  Dispatcher.execute M qb = Fulfilled results →
  Dispatcher.executeOne M qb =
    Fulfilled (match results with
               | [] => VNull
               | document :: _ => VObj KPlain document
               end).
Proof.
  intros H. unfold Dispatcher.executeOne. rewrite H. by destruct results.
Qed.

Lemma executeOne_first_or_null_witness :
  Dispatcher.execute (answering 0 VNull []) QueryBuilder.new = Fulfilled [] ∧
  Dispatcher.executeOne (answering 0 VNull []) QueryBuilder.new = Fulfilled VNull.
Proof.
  split; [reflexivity|].
  exact (executeOne_first_or_null (answering 0 VNull []) QueryBuilder.new [] eq_refl).
Defined.

Example executeOne_first_of_two :
  Dispatcher.executeOne
    (answering 0 VNull [ {[ "name" := VStr "Ada" ]}; {[ "name" := VStr "Bob" ]} ])
    QueryBuilder.new =
  Fulfilled (VObj KPlain {[ "name" := VStr "Ada" ]}).
Proof. reflexivity. Qed.

End Dispatch.

(** ** Further properties of the predicate methods *)

Section MorePredicates.
Implicit Types (qb : QueryBuilder.state) (field operator token : string) (v : value).

Lemma init_field_idempotent (f : gmap string value) field :
  QueryBuilder.init_field (QueryBuilder.init_field f field) field =
  QueryBuilder.init_field f field.
Proof.
  unfold QueryBuilder.init_field at 1. by rewrite get_init_field_truthy.
Qed.

Lemma init_field_falsy (f : gmap string value) field :
  truthy (get f field) = false →
  QueryBuilder.init_field f field = <[field := VObj KPlain ∅]> f.
Proof. intros H. unfold QueryBuilder.init_field. by rewrite H. Qed.

Lemma init_field_truthy (f : gmap string value) field :
  truthy (get f field) = true →
  QueryBuilder.init_field f field = f.
Proof. intros H. unfold QueryBuilder.init_field. by rewrite H. Qed.



(** A falsy value under the field ([null], [0], the empty string, [false],
    [undefined]) is discarded by [where]: the field gets the fresh
    sub-document with the one token, as if it had been absent. *)
Theorem where_replaces_falsy qb field operator token v old :
  QueryBuilder.mongoOperatorMap !! operator = Some token →
  QueryBuilder.filter qb !! field = Some old →
  truthy old = false →
  QueryBuilder.where_ qb field operator v =
    Ok (QueryBuilder.set_filter qb
          (<[field := VObj KPlain {[ token := QueryBuilder.refinedValue operator v ]}]>
             (QueryBuilder.filter qb))).
Proof.
  intros Hop Hold Hfalsy.
  rewrite (where_writes qb field operator token v KPlain ∅ Hop).
  - by rewrite insert_empty.
  - unfold sub_document.
    rewrite init_field_falsy by (by rewrite (get_own _ _ _ Hold)).
    by rewrite lookup_insert_eq.
Qed.

Lemma where_replaces_falsy_witness :
  QueryBuilder.where_ (QueryBuilder.whereId QueryBuilder.new VNull) "_id" "exists" (VBool true) =
    Ok (QueryBuilder.set_filter QueryBuilder.new
          {[ "_id" := VObj KPlain {[ "$exists" := VBool true ]} ]}).
Proof.
  rewrite (where_replaces_falsy (QueryBuilder.whereId QueryBuilder.new VNull)
             "_id" "exists" "$exists" (VBool true) VNull eq_refl eq_refl eq_refl).
  reflexivity.
Defined.

(** On a field that reads as falsy, [where] writes on the sub-document it
    has just made: it returns, and the object it leaves under the field
    depends on the operator and the value alone. *)
Lemma where_fresh operator v :
  ∃ sub : value,
    ∀ qb field,
      truthy (get (QueryBuilder.filter qb) field) = false →
      QueryBuilder.where_ qb field operator v =
        Ok (QueryBuilder.set_filter qb (<[field := sub]> (QueryBuilder.filter qb))).
Proof.
  unfold QueryBuilder.where_, QueryBuilder.write_operator.
  destruct (QueryBuilder.mongoOperatorMap !! operator) as [token|].
  - destruct (truthy (VStr token)).
    + exists (VObj KPlain (<[token := QueryBuilder.refinedValue operator v]> ∅)).
      intros qb field Hf. rewrite (init_field_falsy _ _ Hf), lookup_insert_eq.
      simpl. by rewrite insert_insert_eq.
    + exists (VObj KPlain ∅). intros qb field Hf. by rewrite (init_field_falsy _ _ Hf).
  - destruct (inherited operator).
    + exists (VObj KPlain (<[builtin_source operator := QueryBuilder.refinedValue operator v]> ∅)).
      intros qb field Hf. rewrite (init_field_falsy _ _ Hf), lookup_insert_eq.
      simpl. by rewrite insert_insert_eq.
    + exists (VObj KPlain ∅). intros qb field Hf. by rewrite (init_field_falsy _ _ Hf).
Qed.

(** [where] on a field that reads as falsy (absent and not inherited, or
    holding a falsy value) always returns, and changes the filter at that
    field only: the constraints of the other fields, the options, the
    populated fields, the session, the sort, the projection, the pipeline
    and the pagination state are what they were.  The object written is the
    one the call has just made, which nothing else refers to. *)
Theorem where_touches_one_field qb field operator v :
  truthy (get (QueryBuilder.filter qb) field) = false →
  ∃ qb',
    QueryBuilder.where_ qb field operator v = Ok qb' ∧
    (∀ other, other ≠ field →
       QueryBuilder.filter qb' !! other = QueryBuilder.filter qb !! other) ∧
    QueryBuilder.options qb' = QueryBuilder.options qb ∧
    QueryBuilder.populatedFields qb' = QueryBuilder.populatedFields qb ∧
    QueryBuilder.session qb' = QueryBuilder.session qb ∧
    QueryBuilder.sort qb' = QueryBuilder.sort qb ∧
    QueryBuilder.projection qb' = QueryBuilder.projection qb ∧
    QueryBuilder.aggregationPipeline qb' = QueryBuilder.aggregationPipeline qb ∧
    QueryBuilder.page qb' = QueryBuilder.page qb ∧
    QueryBuilder.pageSize qb' = QueryBuilder.pageSize qb.
Proof.
  intros Hf. destruct (where_fresh operator v) as [sub Hsub].
  eexists. split; [by apply Hsub|]. simpl.
  split; [|by repeat split].
  intros other Hne. by rewrite lookup_insert_ne.
Qed.

Lemma where_touches_one_field_witness :
  ∃ qb',
    QueryBuilder.where_ (QueryBuilder.limit QueryBuilder.new 3) "age" "greaterThan" (VNum 18) =
      Ok qb' ∧
    (∀ other, other ≠ "age" →
       QueryBuilder.filter qb' !! other =
       QueryBuilder.filter (QueryBuilder.limit QueryBuilder.new 3) !! other) ∧
    QueryBuilder.options qb' = QueryBuilder.options (QueryBuilder.limit QueryBuilder.new 3) ∧
    QueryBuilder.populatedFields qb' =
      QueryBuilder.populatedFields (QueryBuilder.limit QueryBuilder.new 3) ∧
    QueryBuilder.session qb' = QueryBuilder.session (QueryBuilder.limit QueryBuilder.new 3) ∧
    QueryBuilder.sort qb' = QueryBuilder.sort (QueryBuilder.limit QueryBuilder.new 3) ∧
    QueryBuilder.projection qb' = QueryBuilder.projection (QueryBuilder.limit QueryBuilder.new 3) ∧
    QueryBuilder.aggregationPipeline qb' =
      QueryBuilder.aggregationPipeline (QueryBuilder.limit QueryBuilder.new 3) ∧
    QueryBuilder.page qb' = QueryBuilder.page (QueryBuilder.limit QueryBuilder.new 3) ∧
    QueryBuilder.pageSize qb' = QueryBuilder.pageSize (QueryBuilder.limit QueryBuilder.new 3).
Proof.
  apply (where_touches_one_field (QueryBuilder.limit QueryBuilder.new 3) "age"
           "greaterThan" (VNum 18)).
  reflexivity.
Defined.

(** Calls of [where] on two different fields that both read as falsy can
    be made in either order: each writes on the sub-document it makes, and
    the builder ends in the same state.  (The model abstracts the order of
    the keys of the filter.) *)
Theorem where_fields_commute qb field1 field2 op1 op2 v1 v2 :
  field1 ≠ field2 →
  truthy (get (QueryBuilder.filter qb) field1) = false →
  truthy (get (QueryBuilder.filter qb) field2) = false →
  obind (QueryBuilder.where_ qb field1 op1 v1)
        (λ qb1, QueryBuilder.where_ qb1 field2 op2 v2) =
  obind (QueryBuilder.where_ qb field2 op2 v2)
        (λ qb2, QueryBuilder.where_ qb2 field1 op1 v1) ∧
  ∃ qb', obind (QueryBuilder.where_ qb field1 op1 v1)
               (λ qb1, QueryBuilder.where_ qb1 field2 op2 v2) = Ok qb'.
Proof.
  intros Hne Hf1 Hf2.
  destruct (where_fresh op1 v1) as [sub1 H1].
  destruct (where_fresh op2 v2) as [sub2 H2].
  assert (Hget : ∀ (f : gmap string value) a b (x : value),
            a ≠ b → get (<[a := x]> f) b = get f b).
  { intros f a b x Hab. unfold get. by rewrite lookup_insert_ne. }
  rewrite (H1 qb field1 Hf1), (H2 qb field2 Hf2). simpl.
  rewrite (H2 _ field2) by (simpl; by rewrite Hget).
  rewrite (H1 _ field1) by (simpl; by rewrite Hget).
  simpl. rewrite !set_filter_set_filter. split; [|eauto].
  do 2 f_equal. by apply insert_insert_ne.
Qed.

Lemma where_fields_commute_witness :
  obind (QueryBuilder.where_ QueryBuilder.new "age" "greaterThan" (VNum 18))
        (λ qb1, QueryBuilder.where_ qb1 "name" "equal" (VStr "Ada")) =
  obind (QueryBuilder.where_ QueryBuilder.new "name" "equal" (VStr "Ada"))
        (λ qb2, QueryBuilder.where_ qb2 "age" "greaterThan" (VNum 18)).
Proof.
  refine (proj1 (where_fields_commute QueryBuilder.new "age" "name" "greaterThan" "equal"
                   (VNum 18) (VStr "Ada") _ _ _)).
  - discriminate.
  - reflexivity.
  - reflexivity.
Defined.

End MorePredicates.

Section Overwrites.
Implicit Types (qb : QueryBuilder.state) (field operator token : string) (v : value).

(** The empty sub-document that a call with an operator the table neither
    owns nor inherits leaves behind does not change what a later [where] on
    the field does: the two calls behave as the later one alone. *)
Theorem where_after_unknown_operator qb field unknown operator v0 v :
  QueryBuilder.mongoOperatorMap !! unknown = None →
  unknown ∉ object_prototype_names →
  obind (QueryBuilder.where_ qb field unknown v0)
        (λ qb1, QueryBuilder.where_ qb1 field operator v) =
  QueryBuilder.where_ qb field operator v.
Proof.
  intros Hun Hi%inherited_elem_of. rewrite (where_unsupported _ _ _ _ Hun Hi). simpl.
  unfold QueryBuilder.where_. simpl. rewrite init_field_idempotent.
  destruct (QueryBuilder.mongoOperatorMap !! operator) as [token|].
  - by destruct (truthy (VStr token)).
  - by destruct (inherited operator).
Qed.

Lemma where_after_unknown_operator_witness :
  obind (QueryBuilder.where_ QueryBuilder.new "age" "between" (VNum 5))
        (λ qb1, QueryBuilder.where_ qb1 "age" "lessThan" (VNum 65)) =
  QueryBuilder.where_ QueryBuilder.new "age" "lessThan" (VNum 65).
Proof.
  apply (where_after_unknown_operator QueryBuilder.new "age" "between" "lessThan"
           (VNum 5) (VNum 65)).
  - reflexivity.
  - by apply inherited_elem_of.
Defined.


(** [whereId] assigns the identifier itself under [_id] and drops whatever
    [where] had written there: the builder is the one [whereId] builds from
    the state before the [where]. *)
Theorem whereId_overwrites_where qb qb1 operator v (_id : value) :
  QueryBuilder.where_ qb "_id" operator v = Ok qb1 →
  QueryBuilder.whereId qb1 _id = QueryBuilder.whereId qb _id ∧
  QueryBuilder.filter (QueryBuilder.whereId qb1 _id) !! "_id" = Some _id.
Proof.
  intros Hw. destruct (where_frame _ _ _ _ _ Hw) as [[f' ->] Hframe].
  split; [|apply lookup_insert_eq].
  unfold QueryBuilder.whereId. rewrite set_filter_set_filter.
  f_equal. apply map_eq. intros i. simpl.
  destruct (decide (i = "_id")) as [->|Hi].
  - by rewrite !lookup_insert_eq.
  - rewrite !lookup_insert_ne by done. by apply Hframe.
Qed.

Lemma whereId_overwrites_where_witness :
  QueryBuilder.whereId
    (QueryBuilder.set_filter QueryBuilder.new
       {[ "_id" := VObj KPlain {[ "$exists" := VBool true ]} ]})
    (VObj (KObjectId "65f0c0ffee") ∅) =
  QueryBuilder.whereId QueryBuilder.new (VObj (KObjectId "65f0c0ffee") ∅).
Proof.
  refine (proj1 (whereId_overwrites_where QueryBuilder.new _ "exists" (VBool true)
                   (VObj (KObjectId "65f0c0ffee") ∅) _)).
  reflexivity.
Defined.

(** In the other order the identifier stays: [where] on [_id] after
    [whereId] finds the [ObjectId], which is an object, and writes the token
    on it as a property; [_id] does not become an operator sub-document. *)
Theorem where_after_whereId_keeps_id qb operator token v (hex : string) :
  QueryBuilder.mongoOperatorMap !! operator = Some token →
  QueryBuilder.where_ (QueryBuilder.whereId qb (VObj (KObjectId hex) ∅)) "_id" operator v =
    Ok (QueryBuilder.set_filter qb
          (<["_id" := VObj (KObjectId hex) {[ token := QueryBuilder.refinedValue operator v ]}]>
             (QueryBuilder.filter qb))).
Proof.
  intros Hop.
  erewrite (where_writes _ "_id" operator token v (KObjectId hex)) by
    (first [exact Hop | simpl; by apply sub_document_insert]).
  simpl. by rewrite insert_insert_eq, insert_empty.
Qed.

Lemma where_after_whereId_keeps_id_witness :
  QueryBuilder.where_
    (QueryBuilder.whereId QueryBuilder.new (VObj (KObjectId "65f0c0ffee") ∅))
    "_id" "notEqual" VNull =
  Ok (QueryBuilder.set_filter QueryBuilder.new
        {[ "_id" := VObj (KObjectId "65f0c0ffee") {[ "$ne" := VNull ]} ]}).
Proof.
  exact (where_after_whereId_keeps_id QueryBuilder.new "notEqual" "$ne" VNull
           "65f0c0ffee" eq_refl).
Defined.

(** [and], [or] and [nor] assign three different keys: each call replaces
    the list of its own combinator and keeps the two others, so calls of
    different combinators can be made in any order. *)
Theorem combinators_independent qb (a a' o n : list value) :
  QueryBuilder.and (QueryBuilder.and qb a) a' = QueryBuilder.and qb a' ∧
  QueryBuilder.and (QueryBuilder.or qb o) a = QueryBuilder.or (QueryBuilder.and qb a) o ∧
  QueryBuilder.and (QueryBuilder.nor qb n) a = QueryBuilder.nor (QueryBuilder.and qb a) n ∧
  QueryBuilder.or (QueryBuilder.nor qb n) o = QueryBuilder.nor (QueryBuilder.or qb o) n ∧
  let qb3 := QueryBuilder.and (QueryBuilder.or (QueryBuilder.nor qb n) o) a in
  QueryBuilder.filter qb3 !! "$and" = Some (array a) ∧
  QueryBuilder.filter qb3 !! "$or" = Some (array o) ∧
  QueryBuilder.filter qb3 !! "$nor" = Some (array n) ∧
  ∀ key, key ≠ "$and" → key ≠ "$or" → key ≠ "$nor" →
    QueryBuilder.filter qb3 !! key = QueryBuilder.filter qb !! key.
Proof.
  unfold QueryBuilder.and, QueryBuilder.or, QueryBuilder.nor.
  rewrite !set_filter_set_filter. simpl.
  split; [by rewrite insert_insert_eq|].
  split; [f_equal; by apply insert_insert_ne|].
  split; [f_equal; by apply insert_insert_ne|].
  split; [f_equal; by apply insert_insert_ne|].
  split; [apply lookup_insert_eq|].
  split; [rewrite lookup_insert_ne by done; apply lookup_insert_eq|].
  split; [rewrite !lookup_insert_ne by done; apply lookup_insert_eq|].
  intros key H1 H2 H3. by rewrite !lookup_insert_ne by done.
Qed.

(** With an operator that the table neither owns nor inherits, [where] on
    a field under which the filter owns a truthy value, an object or a
    primitive, returns the builder as it was: nothing is written and
    nothing is raised. *)
Theorem where_unknown_operator_set_field qb field operator v old :
  QueryBuilder.mongoOperatorMap !! operator = None →
  operator ∉ object_prototype_names →
  QueryBuilder.filter qb !! field = Some old →
  truthy old = true →
  QueryBuilder.where_ qb field operator v = Ok qb.
Proof.
  intros Hop Hi%inherited_elem_of Hold Htr. rewrite (where_unsupported _ _ _ _ Hop Hi).
  rewrite init_field_truthy by (by rewrite (get_own _ _ _ Hold)).
  by destruct qb.
Qed.

Lemma where_unknown_operator_set_field_witness :
  QueryBuilder.where_ (QueryBuilder.whereId QueryBuilder.new (VStr "abc")) "_id" "between" (VNum 5) =
    Ok (QueryBuilder.whereId QueryBuilder.new (VStr "abc")).
Proof.
  refine (where_unknown_operator_set_field (QueryBuilder.whereId QueryBuilder.new (VStr "abc"))
            "_id" "between" (VNum 5) (VStr "abc") eq_refl _ eq_refl eq_refl).
  by apply inherited_elem_of.
Defined.

End Overwrites.

(** ** Further properties of the option methods *)

Section MoreOptions.
Implicit Types (qb : QueryBuilder.state).

(** The last call wins among [limit], [skip] and [paginate]: [paginate]
    erases what earlier calls of [limit] and [skip] stored, and a later
    [skip] replaces the skip of [paginate] and keeps its limit. *)
Theorem paginate_last_call_wins qb (a b p s n : Z) :
  QueryBuilder.paginate (QueryBuilder.skip (QueryBuilder.limit qb a) b) p s =
    QueryBuilder.paginate qb p s ∧
  QueryBuilder.paginate (QueryBuilder.limit (QueryBuilder.skip qb b) a) p s =
    QueryBuilder.paginate qb p s ∧
  QueryBuilder.options (QueryBuilder.skip (QueryBuilder.paginate qb p s) n) !! "skip" =
    Some (VNum n) ∧
  QueryBuilder.options (QueryBuilder.skip (QueryBuilder.paginate qb p s) n) !! "limit" =
    Some (VNum s).
Proof.
  unfold QueryBuilder.paginate, QueryBuilder.skip, QueryBuilder.limit,
    QueryBuilder.set_options. simpl.
  split; [|split; [|split]].
  - f_equal. apply map_eq. intros key.
    rewrite !lookup_insert. by repeat case_decide.
  - f_equal. apply map_eq. intros key.
    rewrite !lookup_insert. by repeat case_decide.
  - apply lookup_insert_eq.
  - rewrite lookup_insert_ne by done. apply lookup_insert_eq.
Qed.

(** [limit] and [skip] assign different keys of the options: they can be
    called in either order, and each keeps the latest of its own values. *)
Theorem limit_skip_independent qb (a a' b b' : Z) :
  QueryBuilder.limit (QueryBuilder.skip qb b) a =
    QueryBuilder.skip (QueryBuilder.limit qb a) b ∧
  QueryBuilder.limit (QueryBuilder.limit qb a) a' = QueryBuilder.limit qb a' ∧
  QueryBuilder.skip (QueryBuilder.skip qb b) b' = QueryBuilder.skip qb b' ∧
  QueryBuilder.options (QueryBuilder.limit (QueryBuilder.skip qb b) a) !! "skip" =
    Some (VNum b).
Proof.
  unfold QueryBuilder.skip, QueryBuilder.limit, QueryBuilder.set_options. simpl.
  split; [f_equal; by apply insert_insert_ne|].
  split; [by rewrite insert_insert_eq|].
  split; [by rewrite insert_insert_eq|].
  rewrite lookup_insert_ne by done. apply lookup_insert_eq.
Qed.

Lemma round_double_negative (z : Z) :
  z < 0 → negative_number (VNumber (round_double z)) = true.
Proof.
  intros Hz. unfold round_double.
  destruct (Z.ltb_spec (Z.abs z) (2 ^ 53)) as [Hlt|Hge]; simpl.
  { by apply Z.ltb_lt. }
  set (a := Z.abs z) in *.
  set (e := Z.log2 a - 52).
  assert (Ha : 0 < a) by (assert (0 < 2 ^ 53) by done; lia).
  assert (Hlog : 53 ≤ Z.log2 a).
  { rewrite <- (Z.log2_pow2 53) by done. by apply Z.log2_le_mono. }
  assert (He : 0 < 2 ^ e) by (apply Z.pow_pos_nonneg; unfold e; lia).
  assert (Hq : 0 < a / 2 ^ e).
  { apply Z.div_str_pos. split; [done|].
    transitivity (2 ^ Z.log2 a).
    - apply Z.pow_le_mono_r; unfold e; lia.
    - by apply Z.log2_spec. }
  match goal with
  | |- context [if ?c then Infinite _ else Finite (Z.sgn z * (?q' * _))] =>
      assert (Hq' : 0 < q')
        by (repeat match goal with |- context [if ?b then _ else _] => destruct b end; lia);
      destruct c
  end; simpl.
  - by apply Z.ltb_lt.
  - apply Z.ltb_lt. rewrite (Z.sgn_neg z Hz). nia.
Qed.

(** [paginate] checks neither argument: a page below 1 with a positive page
    size stores a negative skip (a negative number, or minus infinity when
    the product overflows), which is what the find is then given. *)
Theorem paginate_page_below_one qb (p s : Z) :
  p < 1 →
  0 < s →
  ∃ x, QueryBuilder.options (QueryBuilder.paginate qb p s) !! "skip" = Some x ∧
       negative_number x = true ∧
       Dispatcher.find_options (QueryBuilder.paginate qb p s) !! "skip" = Some x.
Proof.
  intros Hp Hs.
  exists (VNumber (number_mul (number_sub (Finite p) (Finite 1)) (Finite s))).
  split; [|split].
  - unfold QueryBuilder.paginate. simpl QueryBuilder.options.
    rewrite lookup_insert_ne by done. apply lookup_insert_eq.
  - simpl number_sub.
    pose proof (round_double_negative (p - 1) ltac:(lia)) as Hneg.
    destruct (round_double (p - 1)) as [a|negative|]; simpl in Hneg; [| |done].
    + apply Z.ltb_lt in Hneg. simpl number_mul.
      apply round_double_negative. nia.
    + subst negative. simpl.
      destruct (Z.eqb_spec s 0) as [->|_]; [lia|].
      simpl. by destruct (Z.ltb_spec s 0); [lia|].
  - unfold Dispatcher.find_options, QueryBuilder.paginate. simpl QueryBuilder.options.
    rewrite !lookup_insert_ne by done. apply lookup_insert_eq.
Qed.

Lemma paginate_page_below_one_witness :
  ∃ x, QueryBuilder.options (QueryBuilder.paginate QueryBuilder.new 0 10) !! "skip" =
         Some x ∧
       negative_number x = true ∧
       Dispatcher.find_options (QueryBuilder.paginate QueryBuilder.new 0 10) !! "skip" =
         Some x.
Proof.
  apply (paginate_page_below_one QueryBuilder.new 0 10); lia.
Defined.

(** [populate] appends and never removes a duplicate: two calls are one call
    with the concatenated arguments, and a call without arguments changes
    nothing. *)
Theorem populate_appends qb (fields1 fields2 : list string) :
  QueryBuilder.populate (QueryBuilder.populate qb fields1) fields2 =
    QueryBuilder.populate qb (fields1 ++ fields2) ∧
  QueryBuilder.populate qb [] = qb ∧
  length (QueryBuilder.populatedFields (QueryBuilder.populate qb fields1)) =
    (length (QueryBuilder.populatedFields qb) + length fields1)%nat.
Proof.
  unfold QueryBuilder.populate. simpl. split; [|split].
  - by rewrite app_assoc.
  - rewrite app_nil_r. by destruct qb.
  - apply length_app.
Qed.

End MoreOptions.

(** ** Chains of calls *)

Section Chains.
Implicit Types (qb : QueryBuilder.state) (c : call) (calls : list call).

Lemma where_set_filter qb qb' field operator v :
  QueryBuilder.where_ qb field operator v = Ok qb' →
  ∃ f', qb' = QueryBuilder.set_filter qb f'.
Proof. intros Hw. by destruct (where_frame _ _ _ _ _ Hw) as [? _]. Qed.





Lemma invoke_pipeline qb qb' c :
  invoke qb c = Ok qb' →
  QueryBuilder.aggregationPipeline qb' = QueryBuilder.aggregationPipeline qb ++ stages [c].
Proof.
  destruct c; simpl; try (intros [= <-]; simpl; by rewrite ?app_nil_r).
  intros [f' ->]%where_set_filter. simpl. by rewrite app_nil_r.
Qed.

Lemma chain_pipeline qb qb' calls :
  chain qb calls = Ok qb' →
  QueryBuilder.aggregationPipeline qb' = QueryBuilder.aggregationPipeline qb ++ stages calls.
Proof.
  revert qb. induction calls as [|c calls IH]; intros qb; simpl.
  - intros [= <-]. by rewrite app_nil_r.
  - destruct (invoke qb c) as [qb1| |] eqn:H1; simpl; [|done|done].
    intros H. rewrite (IH _ H), (invoke_pipeline _ _ _ H1).
    rewrite <- app_assoc. f_equal. simpl. by rewrite app_nil_r.
Qed.

(** No call removes a stage: after any chain the pipeline is the old one
    followed by the stages of the [aggregate] calls of the chain, in call
    order, whatever other calls come between them; so once there is a
    stage, [execute] stays on the aggregation whatever else is called. *)
Theorem chain_keeps_aggregation qb qb' calls :
  chain qb calls = Ok qb' →
  QueryBuilder.aggregationPipeline qb ++ stages calls ≠ [] →
  QueryBuilder.aggregationPipeline qb' =
    QueryBuilder.aggregationPipeline qb ++ stages calls ∧
  Dispatcher.execute_request qb' =
    AggregateToArray (QueryBuilder.aggregationPipeline qb ++ stages calls)
      {[ "session" := QueryBuilder.session qb' ]}.
Proof.
  intros Hc Hne. pose proof (chain_pipeline _ _ _ Hc) as Hp.
  split; [exact Hp|].
  unfold Dispatcher.execute_request.
  rewrite pipeline_length_positive by (by rewrite Hp). by rewrite Hp.
Qed.

Lemma chain_keeps_aggregation_witness :
  Dispatcher.execute_request
    (QueryBuilder.limit
       (QueryBuilder.aggregate
          (QueryBuilder.whereId
             (QueryBuilder.aggregate QueryBuilder.new (VObj KPlain {[ "$count" := VStr "n" ]}))
             (VObj (KObjectId "65f0c0ffee") ∅))
          (VObj KPlain {[ "$limit" := VNum 1 ]}))
       4) =
  AggregateToArray
    [ VObj KPlain {[ "$count" := VStr "n" ]}; VObj KPlain {[ "$limit" := VNum 1 ]} ]
    {[ "session" := VNull ]}.
Proof.
  refine (proj2 (chain_keeps_aggregation QueryBuilder.new _
                   [ CAggregate (VObj KPlain {[ "$count" := VStr "n" ]});
                     CWhereId (VObj (KObjectId "65f0c0ffee") ∅);
                     CAggregate (VObj KPlain {[ "$limit" := VNum 1 ]});
                     CLimit 4 ] eq_refl _)).
  discriminate.
Defined.

Lemma invoke_options qb qb' c :
  invoke qb c = Ok qb' →
  map_Forall (λ key x, (key = "limit" ∨ key = "skip") ∧ is_number x = true)
    (QueryBuilder.options qb) →
  map_Forall (λ key x, (key = "limit" ∨ key = "skip") ∧ is_number x = true)
    (QueryBuilder.options qb').
Proof.
  intros Hi Ho. destruct c; simpl in Hi;
    try (injection Hi as <-; simpl; try exact Ho).
  - apply where_set_filter in Hi as [f' ->]. exact Ho.
  - apply map_Forall_insert_2; [split; [by left|done]|exact Ho].
  - apply map_Forall_insert_2; [split; [by right|done]|exact Ho].
  - unfold QueryBuilder.paginate. simpl QueryBuilder.options.
    apply map_Forall_insert_2; [split; [by left|done]|].
    apply map_Forall_insert_2; [split; [by right|]|exact Ho].
    by destruct (number_mul _ _).
Qed.

(** The options of a builder made from the fresh one hold nothing but
    [limit] and [skip], each a number: no method writes another key, so the
    sort, the projection and the session the find is given are always the
    ones of the builder's own fields. *)
Theorem chain_options_keys qb' calls key x :
  chain QueryBuilder.new calls = Ok qb' →
  QueryBuilder.options qb' !! key = Some x →
  (key = "limit" ∨ key = "skip") ∧ is_number x = true.
Proof.
  intros Hc Hx.
  assert (Hall : ∀ qb, chain qb calls = Ok qb' →
            map_Forall (λ key x, (key = "limit" ∨ key = "skip") ∧ is_number x = true)
              (QueryBuilder.options qb) →
            map_Forall (λ key x, (key = "limit" ∨ key = "skip") ∧ is_number x = true)
              (QueryBuilder.options qb')).
  { clear. induction calls as [|c calls IH]; intros qb; simpl.
    - by intros [= <-].
    - destruct (invoke qb c) as [qb1| |] eqn:H1; simpl; [|done|done].
      intros H Ho. apply (IH _ H). by eapply invoke_options. }
  exact (Hall _ Hc (map_Forall_empty _) key x Hx).
Qed.

Lemma chain_options_keys_witness :
  ("limit" = "limit" ∨ "limit" = "skip") ∧ is_number (VNum 5) = true.
Proof.
  refine (chain_options_keys _ [ CPaginate 3 20; CSortBy (VObj KPlain ∅); CLimit 5 ]
            "limit" (VNum 5) eq_refl _).
  reflexivity.
Defined.

End Chains.

(** ** Further properties of the dispatcher *)

Section MoreDispatch.
Implicit Types (M : Model) (qb : QueryBuilder.state) (error : thrown) (calls : list call).

Lemma invoke_keeps_filter_session qb qb' c :
  writes_filter c = false →
  writes_session c = false →
  invoke qb c = Ok qb' →
  QueryBuilder.filter qb' = QueryBuilder.filter qb ∧
  QueryBuilder.session qb' = QueryBuilder.session qb.
Proof. intros Hf Hs. by destruct c; simpl in *; try done; intros [= <-]. Qed.

Lemma invoke_keeps_options qb qb' c :
  writes_filter c = false →
  writes_options c = false →
  invoke qb c = Ok qb' →
  QueryBuilder.options qb' = QueryBuilder.options qb.
Proof. intros Hf Ho. by destruct c; simpl in *; try done; intros [= <-]. Qed.

(** [count] reads the filter and the session only.  Calls of [limit],
    [skip], [paginate], [sortBy], [select], [populate] and [aggregate] do
    not change what it issues nor how it settles: it counts the documents
    that match the filter, not the page, and not the pipeline. *)
Theorem count_ignores_options_and_pipeline M qb qb' calls :
  forallb (λ c, negb (writes_filter c || writes_session c)) calls = true →
  chain qb calls = Ok qb' →
  Dispatcher.count_request qb' = Dispatcher.count_request qb ∧
  Dispatcher.count M qb' = Dispatcher.count M qb.
Proof.
  intros Hall Hc.
  assert (H : QueryBuilder.filter qb' = QueryBuilder.filter qb ∧
              QueryBuilder.session qb' = QueryBuilder.session qb).
  { revert qb Hc. induction calls as [|c calls IH]; intros qb; simpl.
    - by intros [= <-].
    - simpl in Hall. apply andb_true_iff in Hall as [Hc Hrest].
      apply negb_true_iff, orb_false_iff in Hc as [Hf Hs].
      destruct (invoke qb c) as [qb1| |] eqn:H1; simpl; [|done|done].
      intros H. destruct (IH Hrest _ H) as [-> ->].
      by eapply invoke_keeps_filter_session. }
  destruct H as [Hf Hs].
  unfold Dispatcher.count, Dispatcher.count_request, Dispatcher.count_error.
  by rewrite Hf, Hs.
Qed.

Lemma count_ignores_options_and_pipeline_witness :
  Dispatcher.count_request
    (QueryBuilder.aggregate (QueryBuilder.paginate QueryBuilder.new 3 20)
       (VObj KPlain {[ "$limit" := VNum 1 ]})) =
  Dispatcher.count_request QueryBuilder.new.
Proof.
  refine (proj1 (count_ignores_options_and_pipeline (answering 0 VNull [])
                   QueryBuilder.new _
                   [ CPaginate 3 20; CAggregate (VObj KPlain {[ "$limit" := VNum 1 ]}) ]
                   eq_refl eq_refl)).
Defined.

(** [explain] explains the find of the filter with the options and the
    session, and nothing else: the stages of [aggregate], the sort of
    [sortBy], the projection of [select] and the fields of [populate] do not
    reach it, although [execute] would run the pipeline or pass the sort
    and the projection. *)
Theorem explain_ignores_pipeline_sort_projection M qb qb' calls verbosity :
  forallb (λ c, negb (writes_filter c || writes_session c || writes_options c)) calls = true →
  chain qb calls = Ok qb' →
  Dispatcher.explain_request qb' verbosity = Dispatcher.explain_request qb verbosity ∧
  Dispatcher.explain M qb' verbosity = Dispatcher.explain M qb verbosity.
Proof.
  intros Hall Hc.
  assert (H : QueryBuilder.filter qb' = QueryBuilder.filter qb ∧
              QueryBuilder.session qb' = QueryBuilder.session qb ∧
              QueryBuilder.options qb' = QueryBuilder.options qb).
  { revert qb Hc. induction calls as [|c calls IH]; intros qb; simpl.
    - by intros [= <-].
    - simpl in Hall. apply andb_true_iff in Hall as [Hc Hrest].
      apply negb_true_iff, orb_false_iff in Hc as [Hfs Ho].
      apply orb_false_iff in Hfs as [Hf Hs].
      destruct (invoke qb c) as [qb1| |] eqn:H1; simpl; [|done|done].
      intros H. destruct (IH Hrest _ H) as (-> & -> & ->).
      destruct (invoke_keeps_filter_session _ _ _ Hf Hs H1) as [-> ->].
      by rewrite (invoke_keeps_options _ _ _ Hf Ho H1). }
  destruct H as (Hf & Hs & Ho).
  unfold Dispatcher.explain, Dispatcher.explain_request, Dispatcher.explain_error.
  by rewrite Hf, Hs, Ho.
Qed.

Lemma explain_ignores_pipeline_sort_projection_witness :
  Dispatcher.explain_request
    (QueryBuilder.sortBy
       (QueryBuilder.aggregate (QueryBuilder.limit QueryBuilder.new 4)
          (VObj KPlain {[ "$limit" := VNum 1 ]}))
       (VObj KPlain {[ "age" := VNum 1 ]}))
    "queryPlanner" =
  Dispatcher.explain_request (QueryBuilder.limit QueryBuilder.new 4) "queryPlanner".
Proof.
  refine (proj1 (explain_ignores_pipeline_sort_projection (answering 0 VNull [])
                   (QueryBuilder.limit QueryBuilder.new 4) _
                   [ CAggregate (VObj KPlain {[ "$limit" := VNum 1 ]});
                     CSortBy (VObj KPlain {[ "age" := VNum 1 ]}) ]
                   "queryPlanner" eq_refl eq_refl)).
Defined.

(** An exception that the call of the collaborator throws on the spot is
    caught by each of [count], [explain] and [execute], whatever the
    collaborator does on its other operations, and rejected as a
    [MongridError] with the code of the operation, the message of the cause
    after the prefix of the operation, and the context of the operation. *)
Theorem thrown_exception_is_wrapped M qb error verbosity :
  (M _ (Dispatcher.count_request qb) = Throws error →
   Dispatcher.count M qb =
     Rejected (MongridError ("Count failed: " +:+ message error) COUNT_ERROR
                 {[ "filter" := VObj KPlain (QueryBuilder.filter qb) ]})) ∧
  (M _ (Dispatcher.explain_request qb verbosity) = Throws error →
   Dispatcher.explain M qb verbosity =
     Rejected (MongridError ("Explain failed: " +:+ message error) EXPLAIN_ERROR
                 (<["options" := VObj KPlain (QueryBuilder.options qb)]>
                    {[ "filter" := VObj KPlain (QueryBuilder.filter qb) ]}))) ∧
  (M _ (Dispatcher.execute_request qb) = Throws error →
   Dispatcher.execute M qb =
     Rejected (MongridError ("Query execution failed: " +:+ message error)
                 QUERY_EXECUTION_ERROR
                 (<["populatedFields" := array (VStr <$> QueryBuilder.populatedFields qb)]>
                    (<["options" := VObj KPlain (QueryBuilder.options qb)]>
                       {[ "filter" := VObj KPlain (QueryBuilder.filter qb) ]})))).
Proof.
  unfold Dispatcher.count, Dispatcher.explain, Dispatcher.execute.
  split; [|split]; intros HM; by rewrite HM.
Qed.

Lemma thrown_exception_is_wrapped_witness :
  Dispatcher.count (collection_down (Failure "not connected") [])
    (QueryBuilder.limit QueryBuilder.new 2) =
    Rejected (MongridError "Count failed: not connected" COUNT_ERROR
                {[ "filter" := VObj KPlain ∅ ]}) ∧
  Dispatcher.execute (collection_down (Failure "not connected") [])
    (QueryBuilder.limit QueryBuilder.new 2) = Fulfilled [].
Proof.
  split; [|reflexivity].
  refine (proj1 (thrown_exception_is_wrapped (collection_down (Failure "not connected") [])
                   (QueryBuilder.limit QueryBuilder.new 2) (Failure "not connected")
                   "queryPlanner") _).
  reflexivity.
Defined.

(** [count], [explain] and [execute] resolve exactly when the promise of
    the collaborator does, and with its value untouched: they neither make
    up a result nor turn a failure into one. *)
Theorem terminal_resolves_iff M qb verbosity (n : Z) (plan : value) (docs : list Document) :
  (Dispatcher.count M qb = Fulfilled n ↔
     M _ (Dispatcher.count_request qb) = Returns (Fulfilled n)) ∧
  (Dispatcher.explain M qb verbosity = Fulfilled plan ↔
     M _ (Dispatcher.explain_request qb verbosity) = Returns (Fulfilled plan)) ∧
  (Dispatcher.execute M qb = Fulfilled docs ↔
     M _ (Dispatcher.execute_request qb) = Returns (Fulfilled docs)).
Proof.
  unfold Dispatcher.count, Dispatcher.explain, Dispatcher.execute, Dispatcher.try_return.
  split; [|split].
  - destruct (M _ (Dispatcher.count_request qb)) as [[]|]; split; congruence.
  - destruct (M _ (Dispatcher.explain_request qb verbosity)) as [[]|]; split; congruence.
  - destruct (M _ (Dispatcher.execute_request qb)) as [[]|]; split; congruence.
Qed.

(** An instance of the rejection of [executeOne]. *)
Lemma executeOne_rejection_witness :
  ∃ cause,
    Dispatcher.execute (rejecting (Failure "timeout")) QueryBuilder.new = Rejected cause ∧
    MongridError "Query execution failed: timeout" QUERY_EXECUTION_ERROR
      (<["options" := VObj KPlain ∅]> {[ "filter" := VObj KPlain ∅ ]}) =
    MongridError ("Query execution failed: " +:+ message cause) QUERY_EXECUTION_ERROR
      (<["options" := VObj KPlain (QueryBuilder.options QueryBuilder.new)]>
         {[ "filter" := VObj KPlain (QueryBuilder.filter QueryBuilder.new) ]}).
Proof.
  apply (executeOne_rejection (rejecting (Failure "timeout")) QueryBuilder.new).
  reflexivity.
Defined.

(** An exception that the call of the collaborator throws on the spot is
    wrapped twice on its way through [executeOne]: by [execute], then again
    by [executeOne], whose error has the prefix twice and the context of
    [executeOne]; the error of [execute] with its populated fields is
    lost. *)
Theorem executeOne_wraps_thrown_twice M qb error :
  M _ (Dispatcher.execute_request qb) = Throws error →
  Dispatcher.executeOne M qb =
    Rejected (MongridError
                ("Query execution failed: Query execution failed: " +:+ message error)
                QUERY_EXECUTION_ERROR
                (<["options" := VObj KPlain (QueryBuilder.options qb)]>
                   {[ "filter" := VObj KPlain (QueryBuilder.filter qb) ]})).
Proof.
  intros HM. unfold Dispatcher.executeOne, Dispatcher.execute. by rewrite HM.
Qed.

Lemma executeOne_wraps_thrown_twice_witness :
  Dispatcher.executeOne (throwing (Failure "not connected")) QueryBuilder.new =
    Rejected (MongridError
                "Query execution failed: Query execution failed: not connected"
                QUERY_EXECUTION_ERROR
                (<["options" := VObj KPlain ∅]> {[ "filter" := VObj KPlain ∅ ]})).
Proof.
  exact (executeOne_wraps_thrown_twice (throwing (Failure "not connected"))
           QueryBuilder.new (Failure "not connected") eq_refl).
Defined.

(** The session of [setSession] is in the options of every operation the
    dispatcher issues, whichever branch [execute] takes; in the options of
    the find, the session, the sort and the projection are the ones of the
    builder's fields, whatever the builder's options hold. *)
Theorem session_reaches_every_request qb (s : value) verbosity :
  let qb' := QueryBuilder.setSession qb s in
  request_opts (Dispatcher.count_request qb') !! "session" = Some s ∧
  request_opts (Dispatcher.explain_request qb' verbosity) !! "session" = Some s ∧
  request_opts (Dispatcher.execute_request qb') !! "session" = Some s ∧
  Dispatcher.find_options qb' !! "sort" = Some (QueryBuilder.sort qb) ∧
  Dispatcher.find_options qb' !! "projection" =
    Some (VObj KPlain (QueryBuilder.projection qb)).
Proof.
  intros qb'. split; [apply lookup_insert_eq|]. split; [apply lookup_insert_eq|].
  split.
  - unfold Dispatcher.execute_request. simpl.
    destruct (QueryBuilder.aggregationPipeline qb) as [|stage rest]; simpl;
      apply lookup_insert_eq.
  - unfold Dispatcher.find_options. simpl. split.
    + rewrite !lookup_insert_ne by done. apply lookup_insert_eq.
    + rewrite lookup_insert_ne by done. apply lookup_insert_eq.
Qed.

End MoreDispatch.
